(** * angular-zone: the chunked work loop of [AppComponent]

    A shallow embedding of [src/app/app.component.ts].  The component owns
    three signals ([progress], [loading], [inAngularZone]) and one public
    command, [runOutsideAngular], which starts a frame-paced loop ([step])
    outside Angular's zone and re-enters the zone at fixed checkpoints.

    The program is effectful: it writes signals, queries and switches the
    current zone, mutates the closure variable [i], and re-schedules itself
    through [requestAnimationFrame].  The embedding threads a [World]
    through a small state-and-exception monad, and every effect is also
    appended to a [trace], so that statements about what is published, and
    when, can be read off a run. *)

From Stdlib Require Import ZArith QArith Qround List Bool Sorted Lia.
From stdpp Require Import base list.
Import ListNotations.

Open Scope Z_scope.

(** ** Data *)

(** The three messages the component writes to the console
    (lines 95, 116, 129). *)
Inductive Msg : Type :=
| MsgRunning      (* "Running heavy task outside Angular zone..." *)
| MsgUpdating     (* "Updating inside Angular zone..." *)
| MsgCompleted.   (* "Task completed inside Angular zone!" *)

(** The calls made inside the periodic checkpoint callback (lines
    116-119); the host may make any of them raise. *)
Inductive Call : Type :=
| CallLog | CallProgressSet | CallCheckZone | CallSetTimeout.

Definition Call_eqb (a b : Call) : bool :=
  match a, b with
  | CallLog, CallLog | CallProgressSet, CallProgressSet
  | CallCheckZone, CallCheckZone | CallSetTimeout, CallSetTimeout => true
  | _, _ => false
  end.

(** One entry per effect of the program, in program order. *)
Inductive Event : Type :=
| ConsoleLog (m : Msg)
| ProgressSet (v : Z)                (* this.progress.set(v) *)
| LoadingSet (b : bool)              (* this.loading.set(b) *)
| InAngularZoneSet (b : bool)        (* this.inAngularZone.set(b) *)
| Incr (r : nat) (i : Z)             (* i++ in activation r; i is the new value *)
| EnterAngular | LeaveAngular        (* this._ngZone.run(...) *)
| EnterOutside | LeaveOutside        (* this._ngZone.runOutsideAngular(...) *)
| SetTimeout (ms : Z)
| RequestAnimationFrame (r : nat)
| Uncaught.                          (* an exception reached the host *)

(** The component's signals, the current zone, the closure variables
    [let i] (one per activation of [runOutsideAngular], addressed by the
    activation's index) and the pending [requestAnimationFrame] callbacks.
    A pending callback is the [step] closure of an activation together with
    the zone it was scheduled from: zone.js runs a scheduled callback in the
    zone that scheduled it. *)
Record World : Type := mkWorld {
  progress : Z;
  loading : bool;
  inAngularZone : bool;
  zone : bool;                       (* NgZone.isInAngularZone() *)
  counters : list Z;
  frames : list (bool * nat);
  trace : list Event
}.

Definition emit (e : Event) (w : World) : World :=
  mkWorld (progress w) (loading w) (inAngularZone w) (zone w)
          (counters w) (frames w) (trace w ++ [e]).

Definition setZone (z : bool) (w : World) : World :=
  mkWorld (progress w) (loading w) (inAngularZone w) z
          (counters w) (frames w) (trace w).

Definition setFrames (q : list (bool * nat)) (w : World) : World :=
  mkWorld (progress w) (loading w) (inAngularZone w) (zone w)
          (counters w) q (trace w).

Definition setCounters (c : list Z) (w : World) : World :=
  mkWorld (progress w) (loading w) (inAngularZone w) (zone w)
          c (frames w) (trace w).

(** The workload and the host it runs on.  The source fixes [total] to
    3000 and the cadence to 500; [raises i c] tells whether call [c] of the
    checkpoint callback raises when the callback runs at iteration [i]. *)
Record Config : Type := mkConfig {
  total : Z;
  cadence : Z;
  raises : Z -> Call -> bool
}.

Definition noRaise : Z -> Call -> bool := fun _ _ => false.

Definition raiseAt (i0 : Z) (c0 : Call) : Z -> Call -> bool :=
  fun i c => (i =? i0) && Call_eqb c c0.

Definition source : Config := mkConfig 3000 500 noRaise.

(** ** Effects *)

(** A computation either returns a value and a world, or throws and leaves
    the world as it was at the throw. *)
Inductive Result (A : Type) : Type :=
| Ok (a : A) (w : World)
| Throw (w : World).
Arguments Ok {A} a w.
Arguments Throw {A} w.

Definition M (A : Type) : Type := World -> Result A.

Definition ret {A} (a : A) : M A := fun w => Ok a w.

Definition bind {A B} (c : M A) (k : A -> M B) : M B :=
  fun w => match c w with
           | Ok a w' => k a w'
           | Throw w' => Throw w'
           end.

Notation "x <- c ;; k" := (bind c (fun x => k))
  (at level 100, c at next level, k at level 200, right associativity).
Notation "c >> k" := (bind c (fun _ => k))
  (at level 100, k at level 200, right associativity).

(** A call the host can make raise: nothing of it takes effect then. *)
Definition call {A} (fails : bool) (c : M A) : M A :=
  fun w => if fails then Throw w else c w.

(** [console.log] and the [set] of each signal. *)
Definition console_log (m : Msg) : M unit :=
  fun w => Ok tt (emit (ConsoleLog m) w).

Definition progress_set (v : Z) : M unit :=
  fun w => Ok tt (emit (ProgressSet v)
    (mkWorld v (loading w) (inAngularZone w) (zone w)
             (counters w) (frames w) (trace w))).

Definition loading_set (b : bool) : M unit :=
  fun w => Ok tt (emit (LoadingSet b)
    (mkWorld (progress w) b (inAngularZone w) (zone w)
             (counters w) (frames w) (trace w))).

Definition inAngularZone_set (b : bool) : M unit :=
  fun w => Ok tt (emit (InAngularZoneSet b)
    (mkWorld (progress w) (loading w) b (zone w)
             (counters w) (frames w) (trace w))).

(** [setTimeout(() => { }, ms)]: the callback is empty, so only the call
    is recorded. *)
Definition setTimeout (ms : Z) : M unit :=
  fun w => Ok tt (emit (SetTimeout ms) w).

(** Modelled from the spec: [NgZone.isInAngularZone()] is Angular's and
    not part of the sources.  Section 4.2: "a query with no side effects,
    safe to call from either context". *)
Definition NgZone_isInAngularZone : M bool := fun w => Ok (zone w) w.

(** Modelled from the spec: [NgZone.run(fn)] is Angular's and not part of
    the sources.  Section 4.2: it "executes fn immediately, in a context
    flagged as inside the synchronization boundary", and "the supplied
    callback runs to completion before the primitive returns".  The zone of
    the caller is back when [fn] returns or throws; section 4.1: "no
    work-loop errors are caught", so what [fn] throws is passed on to the
    caller. *)
Definition ngZone_run {A} (fn : M A) : M A :=
  fun w =>
    match fn (setZone true (emit EnterAngular w)) with
    | Ok a w' => Ok a (setZone (zone w) (emit LeaveAngular w'))
    | Throw w' => Throw (setZone (zone w) (emit LeaveAngular w'))
    end.

(** Modelled from the spec: [NgZone.runOutsideAngular(fn)], Angular's as
    well.  Section 4.2: it "executes fn immediately, in a context flagged as
    outside the synchronization boundary". *)
Definition ngZone_runOutsideAngular {A} (fn : M A) : M A :=
  fun w =>
    match fn (setZone false (emit EnterOutside w)) with
    | Ok a w' => Ok a (setZone (zone w) (emit LeaveOutside w'))
    | Throw w' => Throw (setZone (zone w) (emit LeaveOutside w'))
    end.

(** Modelled from the spec: [window.requestAnimationFrame(step)], the
    host's, called from activation [r].  Section 4.1: "schedule the next
    loop iteration via the host's frame-pacing primitive"; the callback
    waits for the next frame. *)
Definition requestAnimationFrame (r : nat) : M unit :=
  fun w => Ok tt (emit (RequestAnimationFrame r)
                       (setFrames (frames w ++ [(zone w, r)]) w)).

(** [let i = 0]: a new closure variable; its index names the activation. *)
Definition alloc (v : Z) : M nat :=
  fun w => Ok (length (counters w)) (setCounters (counters w ++ [v]) w).

(** [i++] in activation [r], returning the new value (the source reads [i]
    only after the increment).  A [step] closure always has its variable;
    an index outside the store has no counterpart in the source. *)
Definition incr (r : nat) : M Z :=
  fun w => match counters w !! r with
           | Some i => Ok (i + 1)
                          (emit (Incr r (i + 1))
                                (setCounters (<[r := i + 1]> (counters w)) w))
           | None => Throw w
           end.

(** [Math.round]: the nearest integer, halves rounded up.  Numbers are
    exact rationals here; the source computes in binary floating point,
    which can give another integer when the exact percentage is a half
    away from an integer (435 / 3000 * 100 is 14.5 exactly, and a little
    less in doubles).  At the iterations where the source's workload and
    the 10 / 5 scenario publish, 0, 500, ..., 3000 and 0, 5, 10, both give
    the same integers; what is stated below about the values published is
    stated for these workloads, and for any workload only what does not
    depend on the value, such as the order. *)
Definition Math_round (x : Q) : Z := Qfloor (x + (1 # 2))%Q.

(** ** The component *)

(** Lines 78-80. *)
Definition checkZone : M unit :=
  b <- NgZone_isInAngularZone ;;
  inAngularZone_set b.

(** Line 114. *)
Definition percent (cfg : Config) (i : Z) : Z :=
  Math_round ((inject_Z i / inject_Z (total cfg)) * inject_Z 100)%Q.

(** Lines 115-120: the callback of the periodic checkpoint. *)
Definition checkpoint (cfg : Config) (i : Z) : M unit :=
  call (raises cfg i CallLog) (console_log MsgUpdating) >>
  call (raises cfg i CallProgressSet) (progress_set (percent cfg i)) >>
  call (raises cfg i CallCheckZone) checkZone >>
  call (raises cfg i CallSetTimeout) (setTimeout 300).

(** Lines 128-133: the callback of the completion. *)
Definition completion : M unit :=
  console_log MsgCompleted >>
  loading_set false >>
  progress_set 100 >>
  checkZone.

(** Lines 108-135: one unit of work of activation [r]. *)
Definition step (cfg : Config) (r : nat) : M unit :=
  i <- incr r ;;
  checkZone >>
  (if Z.rem i (cadence cfg) =? 0
   then ngZone_run (checkpoint cfg i)
   else ret tt) >>
  if i <? total cfg
  then requestAnimationFrame r
  else ngZone_run completion.

(** Lines 93-139. *)
Definition runOutsideAngular (cfg : Config) : M unit :=
  ngZone_runOutsideAngular
    (console_log MsgRunning >>
     checkZone >>
     loading_set true >>
     progress_set 0 >>
     r <- alloc 0 ;;
     step cfg r).

(** Lines 17-32: the signals' initial values; the component is created
    inside Angular's zone. *)
Definition fresh : World := mkWorld 0 false true true [] [] [].

(** Lines 63-69: wraps [ApplicationRef.tick] so that it logs before it
    ticks; the application reference is no part of the world above, and
    nothing of the world changes. *)
Definition watchTicks : M unit := ret tt.

(** Lines 51-54. *)
Definition constructor : M unit :=
  watchTicks >>
  checkZone.

(** ** The host *)

(** Modelled from the spec: the host's frame scheduler is not part of the
    sources.  Section 5: "suspension occurs only at the point where the loop
    schedules its next frame-paced continuation; between suspensions, all
    code runs to completion".  The host runs a pending callback in the zone
    it was scheduled from; an exception leaving the callback ends that
    callback only, and is recorded as [Uncaught]. *)
Definition runTask (cfg : Config) (t : bool * nat) (w : World) : World :=
  match step cfg (snd t) (setZone (fst t) w) with
  | Ok _ w' => setZone (zone w) w'
  | Throw w' => setZone (zone w) (emit Uncaught w')
  end.

(** One display frame: the callbacks pending when the frame starts run in
    the order they were requested; what they request waits for the next
    frame. *)
Definition frame (cfg : Config) (w : World) : World :=
  fold_left (fun w t => runTask cfg t w) (frames w) (setFrames [] w).

Fixpoint run (cfg : Config) (n : nat) (w : World) : World :=
  match n with
  | O => w
  | S n' => frame cfg (run cfg n' w)
  end.

(** The world a command leaves behind, returned or thrown. *)
Definition after {A} (c : M A) (w : World) : World :=
  match c w with
  | Ok _ w' => w'
  | Throw w' => w'
  end.

(** The component once constructed, at rest. *)
Definition initial : World := after constructor fresh.

(** ** Reading a trace *)

(** What an observer of the trace knows before an event: the iteration
    last written by [i++] and how many [NgZone.run] callbacks are open. *)
Record Seen : Type := mkSeen { seenIter : Z; seenDepth : nat }.

Definition see (s : Seen) (e : Event) : Seen :=
  match e with
  | Incr _ i => mkSeen i (seenDepth s)
  | EnterAngular => mkSeen (seenIter s) (S (seenDepth s))
  | LeaveAngular => mkSeen (seenIter s) (pred (seenDepth s))
  | _ => s
  end.

Definition seeAll (s : Seen) (tr : list Event) : Seen := fold_left see tr s.

(** Every event with what was known just before it. *)
Fixpoint annotate (s : Seen) (tr : list Event) : list (Seen * Event) :=
  match tr with
  | [] => []
  | e :: tr' => (s, e) :: annotate (see s e) tr'
  end.

Definition seen0 : Seen := mkSeen 0 0.

(** What a reader [f] of annotated events collects along a trace. *)
Definition collect {A} (f : Seen * Event -> list A) (s : Seen)
    (tr : list Event) : list A :=
  flat_map f (annotate s tr).

Definition published (se : Seen * Event) : list (Z * bool * Z) :=
  match snd se with
  | ProgressSet v =>
      [(seenIter (fst se), negb (Nat.eqb (seenDepth (fst se)) 0), v)]
  | _ => []
  end.

Definition fired (se : Seen * Event) : list Z :=
  match snd se with
  | EnterAngular => [seenIter (fst se)]
  | _ => []
  end.

Definition loadingSet (se : Seen * Event) : list (Z * bool * bool) :=
  match snd se with
  | LoadingSet b =>
      [(seenIter (fst se), negb (Nat.eqb (seenDepth (fst se)) 0), b)]
  | _ => []
  end.

Definition zoneWritten (se : Seen * Event) : list (Z * bool * bool) :=
  match snd se with
  | InAngularZoneSet b =>
      [(seenIter (fst se), negb (Nat.eqb (seenDepth (fst se)) 0), b)]
  | _ => []
  end.

Definition begun (se : Seen * Event) : list Z :=
  match snd se with
  | Incr _ i => [i]
  | _ => []
  end.

(** The values published to [progress], each with the iteration at which
    it is published and whether an [NgZone.run] callback was executing
    then. *)
Definition publications (tr : list Event) : list (Z * bool * Z) :=
  collect published seen0 tr.

(** The iterations at which an [NgZone.run] callback starts. *)
Definition firings (tr : list Event) : list Z := collect fired seen0 tr.

(** The values written to [loading], each with the iteration of the
    write and whether an [NgZone.run] callback was executing then. *)
Definition loadingSets (tr : list Event) : list (Z * bool * bool) :=
  collect loadingSet seen0 tr.

(** The values written to [inAngularZone], each with the iteration of the
    write and whether an [NgZone.run] callback was executing then. *)
Definition zoneWrites (tr : list Event) : list (Z * bool * bool) :=
  collect zoneWritten seen0 tr.

(** The iterations begun, in order. *)
Definition units (tr : list Event) : list Z := collect begun seen0 tr.

(** The events of [w] that [w0] did not have yet. *)
Definition since (w0 w : World) : list Event :=
  skipn (length (trace w0)) (trace w).

(** ** Closed forms *)

(** The events of one unit of work that reaches iteration [i] in zone [z]
    when no call raises. *)
Definition stepEvents (cfg : Config) (r : nat) (z : bool) (i : Z) : list Event :=
  [Incr r i; InAngularZoneSet z] ++
  (if Z.rem i (cadence cfg) =? 0
   then [EnterAngular; ConsoleLog MsgUpdating; ProgressSet (percent cfg i);
         InAngularZoneSet true; SetTimeout 300; LeaveAngular]
   else []) ++
  (if i <? total cfg
   then [RequestAnimationFrame r]
   else [EnterAngular; ConsoleLog MsgCompleted; LoadingSet false;
         ProgressSet 100; InAngularZoneSet true; LeaveAngular]).

(** The world after that unit of work. *)
Definition stepped (cfg : Config) (r : nat) (i : Z) (w : World) : World :=
  let cp := Z.rem i (cadence cfg) =? 0 in
  let more := i <? total cfg in
  mkWorld (if more then (if cp then percent cfg i else progress w) else 100)
          (if more then loading w else false)
          (if more then (if cp then true else zone w) else true)
          (zone w)
          (<[r := i]> (counters w))
          (if more then frames w ++ [(zone w, r)] else frames w)
          (trace w ++ stepEvents cfg r (zone w) i).

(** The events of [runOutsideAngular] up to its return. *)
Definition startEvents (cfg : Config) (r : nat) : list Event :=
  [EnterOutside; ConsoleLog MsgRunning; InAngularZoneSet false;
   LoadingSet true; ProgressSet 0] ++ stepEvents cfg r false 1 ++ [LeaveOutside].

(** The events of the units of work 2, ..., n + 1, each run by a frame. *)
Definition laterEvents (cfg : Config) (r : nat) (n : nat) : list Event :=
  flat_map (fun j => stepEvents cfg r false (Z.of_nat j)) (seq 2 n).

Definition runEvents (cfg : Config) (r : nat) (n : nat) : list Event :=
  startEvents cfg r ++ laterEvents cfg r n.

(** The world [runOutsideAngular] returns. *)
Definition started (cfg : Config) (w : World) : World :=
  setZone (zone w)
    (emit LeaveOutside
       (stepped cfg (length (counters w)) 1
          (mkWorld 0 true false false (counters w ++ [0]) (frames w)
             (trace w ++ [EnterOutside; ConsoleLog MsgRunning;
                          InAngularZoneSet false; LoadingSet true;
                          ProgressSet 0])))).

(** The iteration reached [n] frames after the start. *)
Definition reached (cfg : Config) (n : nat) : nat :=
  Nat.min (S n) (Z.to_nat (total cfg)).

(** A single activation, started in [w0], that has done [k] units of
    work. *)
Record Running (cfg : Config) (w0 : World) (k : nat) (w : World) : Prop := {
  at_counters : counters w = counters w0 ++ [Z.of_nat k];
  at_frames : frames w = if Z.of_nat k <? total cfg
                         then [(false, length (counters w0))] else [];
  at_loading : loading w = (Z.of_nat k <? total cfg);
  at_inAngularZone :
    inAngularZone w = (Z.rem (Z.of_nat k) (cadence cfg) =? 0)
                      || negb (Z.of_nat k <? total cfg);
  at_zone : zone w = zone w0;
  at_trace : trace w = trace w0 ++ runEvents cfg (length (counters w0)) (pred k)
}.

(** ** Statements the code is checked against *)

(** The scenario workload: ten units of work, a checkpoint every five. *)
Definition scenario : Config := mkConfig 10 5 noRaise.

(** [progress] is published with exactly the values [vs], in order. *)
Definition publishedExactly (vs : list Z) (tr : list Event) : Prop :=
  map snd (publications tr) = vs.

(** A start in a world where a run is active is refused, and the world is
    left as it was. *)
Definition rejectsSecondStart (cfg : Config) (w : World) : Prop :=
  loading w = true -> runOutsideAngular cfg w = Throw w.

(** Callbacks fire at exactly the iterations [js], once each. *)
Definition firesExactlyAt (js : list Z) (tr : list Event) : Prop :=
  firings tr = js.

(** [inAngularZone] reads true only while an [NgZone.run] callback is
    executing. *)
Definition trueOnlyInCallback (w : World) : Prop :=
  inAngularZone w = true ->
  (0 < seenDepth (seeAll seen0 (trace w)))%nat.

(** [loading] reads true as long as some activation has not reached the
    total. *)
Definition loadingUntilTotal (cfg : Config) (w : World) : Prop :=
  forall r i, counters w !! r = Some i -> i < total cfg -> loading w = true.

(** [loading] reads true as long as the next unit of work of a run is
    pending, that is, until its completion callback. *)
Definition loadingWhilePending (w : World) : Prop :=
  frames w <> [] -> loading w = true.


(** ** Further readers, and the application reference *)

Definition requested (se : Seen * Event) : list nat :=
  match snd se with
  | RequestAnimationFrame r => [r]
  | _ => []
  end.

(** The activations that requested a frame, one entry per request. *)
Definition requests (tr : list Event) : list nat :=
  collect requested seen0 tr.

Definition enteredAt (se : Seen * Event) : list nat :=
  match snd se with
  | EnterAngular => [seenDepth (fst se)]
  | _ => []
  end.

(** How many [NgZone.run] callbacks were already executing each time one
    was entered. *)
Definition nestings (tr : list Event) : list nat :=
  collect enteredAt seen0 tr.

(** The iteration of the last checkpoint at or before iteration [i]. *)
Definition lastCheckpoint (cfg : Config) (i : Z) : Z :=
  cadence cfg * (i / cadence cfg).

(** Lines 63-69 on the side of the application reference.  [tick] is a
    field of [ApplicationRef] holding a function; what it does to the
    application is Angular's, so a tick is any function from the
    application to the application and the lines it wrote to the console.
    [watchTicks] reads the field and stores a function that logs one line
    and then calls what it read. *)
Module AppRef.

Inductive Line : Type :=
| TickLine.      (* "Angular change detection tick" *)

Definition Tick (App : Type) : Type := App -> App * list Line.

Definition watchTicks {App : Type} (tick : Tick App) : Tick App :=
  fun a => let (a', out) := tick a in (a', TickLine :: out).

End AppRef.

(** ** Tactics *)

(** Unfolds the commands of the component on a world given by its
    fields. *)
Ltac exec :=
  cbv beta iota delta
    [step checkpoint completion runOutsideAngular checkZone
     ngZone_run ngZone_runOutsideAngular call bind ret requestAnimationFrame
     console_log progress_set loading_set setTimeout alloc
     NgZone_isInAngularZone inAngularZone_set emit setZone setFrames
     setCounters progress loading inAngularZone zone counters frames trace].

(** Reads a trace given by its events. *)
Ltac read_trace :=
  cbn [collect annotate flat_map app see fst snd seenIter seenDepth
       published fired loadingSet zoneWritten begun Nat.eqb negb pred].

(** ** The unit of work *)

Lemma step_ok (cfg : Config) (r : nat) (w : World) (i : Z) :
  counters w !! r = Some i ->
  (forall c, raises cfg (i + 1) c = false) ->
  step cfg r w = Ok tt (stepped cfg r (i + 1) w).
Proof.
  intros Hi Hr.
  unfold step, stepped, stepEvents, checkpoint, bind at 1, incr.
  rewrite Hi. cbv beta iota.
  rewrite (Hr CallLog), (Hr CallProgressSet), (Hr CallCheckZone),
    (Hr CallSetTimeout).
  destruct w as [p l a z c f t].
  destruct (Z.rem (i + 1) (cadence cfg) =? 0);
    destruct (i + 1 <? total cfg); exec;
    repeat rewrite <- app_assoc; reflexivity.
Qed.

Lemma start_ok (cfg : Config) (w : World) :
  (forall c, raises cfg 1 c = false) ->
  runOutsideAngular cfg w = Ok tt (started cfg w).
Proof.
  intros Hr. destruct w as [p l a z c f t].
  unfold runOutsideAngular, ngZone_runOutsideAngular, started.
  cbv beta iota delta
    [bind console_log checkZone loading_set progress_set alloc
     NgZone_isInAngularZone inAngularZone_set emit setZone setCounters
     progress loading inAngularZone zone counters frames trace].
  rewrite (step_ok cfg _ _ 0).
  - repeat rewrite <- app_assoc. reflexivity.
  - apply list_lookup_middle. reflexivity.
  - exact Hr.
Qed.

(** ** The host *)

Lemma frame_idle (cfg : Config) (w : World) : frames w = [] -> frame cfg w = w.
Proof.
  destruct w as [p l a z c f t]. cbn. intros ->. reflexivity.
Qed.

Lemma run_idle (cfg : Config) (n : nat) (w : World) :
  frames w = [] -> run cfg n w = w.
Proof.
  intros H. induction n as [|n IH]; cbn; [reflexivity|].
  rewrite IH. apply frame_idle, H.
Qed.

Lemma run_add (cfg : Config) (m n : nat) (w : World) :
  run cfg (n + m) w = run cfg n (run cfg m w).
Proof.
  induction n as [|n IH]; cbn; [reflexivity|]. rewrite IH. reflexivity.
Qed.

Lemma run_stable (cfg : Config) (m n : nat) (w : World) :
  frames (run cfg m w) = [] -> (m <= n)%nat -> run cfg n w = run cfg m w.
Proof.
  intros H Hle. replace n with ((n - m) + m)%nat by lia.
  rewrite run_add. apply run_idle, H.
Qed.

Lemma frame_single (cfg : Config) (w : World) (z : bool) (r : nat) (i : Z) :
  frames w = [(z, r)] ->
  counters w !! r = Some i ->
  (forall c, raises cfg (i + 1) c = false) ->
  frame cfg w = setZone (zone w) (stepped cfg r (i + 1) (setZone z (setFrames [] w))).
Proof.
  intros Hf Hi Hr. unfold frame. rewrite Hf. cbn [fold_left].
  unfold runTask. cbn [fst snd].
  rewrite (step_ok cfg r _ i).
  - destruct w; reflexivity.
  - destruct w; exact Hi.
  - exact Hr.
Qed.

(** ** A single activation *)

Lemma running_start (cfg : Config) (w0 : World) :
  frames w0 = [] -> Running cfg w0 1 (started cfg w0).
Proof.
  intros Hf. destruct w0 as [p l a z c f t]. cbn in Hf. subst f.
  split; change (Z.of_nat 1) with 1;
    unfold started, stepped, runEvents, startEvents, laterEvents, stepEvents;
    destruct (1 <? total cfg); destruct (Z.rem 1 (cadence cfg) =? 0);
    cbv beta iota delta
      [emit setZone progress loading inAngularZone zone counters frames trace];
    cbn [pred seq flat_map length orb negb];
    try reflexivity;
    try (rewrite insert_app_r_alt by reflexivity;
         rewrite Nat.sub_diag; reflexivity);
    rewrite app_nil_r; repeat rewrite <- app_assoc; reflexivity.
Qed.

Lemma laterEvents_S (cfg : Config) (r m : nat) :
  laterEvents cfg r (S m) =
  laterEvents cfg r m ++ stepEvents cfg r false (Z.of_nat (S (S m))).
Proof.
  unfold laterEvents. rewrite seq_S, flat_map_app. cbn [flat_map].
  rewrite app_nil_r. reflexivity.
Qed.

Lemma running_frame (cfg : Config) (w0 w : World) (m : nat) :
  Running cfg w0 (S m) w ->
  Z.of_nat (S m) < total cfg ->
  (forall c, raises cfg (Z.of_nat (S (S m))) c = false) ->
  Running cfg w0 (S (S m)) (frame cfg w).
Proof.
  intros [Hc Hf Hl Ha Hz Ht] Hlt Hr.
  assert (Hk : Z.of_nat (S (S m)) = Z.of_nat (S m) + 1) by lia.
  apply Z.ltb_lt in Hlt. rewrite Hlt in Hf, Hl.
  rewrite Hk in Hr.
  rewrite (frame_single cfg w false (length (counters w0)) (Z.of_nat (S m)))
    by (try assumption; rewrite Hc; apply list_lookup_middle; reflexivity).
  destruct w as [p l a z c f t].
  cbn [progress loading inAngularZone zone counters frames trace] in *.
  subst c f l a z t.
  split; rewrite ?Hk; unfold stepped;
    cbv beta iota delta
      [emit setZone setFrames progress loading inAngularZone zone counters
       frames trace].
  - rewrite insert_app_r_alt by reflexivity.
    rewrite Nat.sub_diag. reflexivity.
  - destruct (Z.of_nat (S m) + 1 <? total cfg); reflexivity.
  - destruct (Z.of_nat (S m) + 1 <? total cfg); reflexivity.
  - destruct (Z.of_nat (S m) + 1 <? total cfg);
      destruct (Z.rem (Z.of_nat (S m) + 1) (cadence cfg) =? 0); reflexivity.
  - reflexivity.
  - cbn [pred]. unfold runEvents. rewrite laterEvents_S, Hk.
    repeat rewrite <- app_assoc. reflexivity.
Qed.

Lemma running_idle (cfg : Config) (w0 w : World) (k : nat) :
  Running cfg w0 k w -> total cfg <= Z.of_nat k -> frames w = [].
Proof.
  intros [_ Hf _ _ _ _] Hge.
  rewrite Hf. destruct (Z.ltb_spec (Z.of_nat k) (total cfg)); [lia|reflexivity].
Qed.

(** After [n] frames a run that nothing interrupts has done [n + 1] units
    of work, as long as that does not exceed the total. *)
Lemma run_running (cfg : Config) (w0 : World) (n : nat) :
  frames w0 = [] ->
  Z.of_nat n < total cfg ->
  (forall i c, 1 <= i <= Z.of_nat (S n) -> raises cfg i c = false) ->
  Running cfg w0 (S n) (run cfg n (started cfg w0)).
Proof.
  intros Hf Hlt Hr. induction n as [|n IH].
  - apply running_start, Hf.
  - cbn [run]. apply running_frame.
    + apply IH; [lia|]. intros i c Hi. apply Hr. lia.
    + lia.
    + intros c. apply Hr. lia.
Qed.

(** The same without the bound: the work stops at the total. *)
Lemma run_reached (cfg : Config) (w0 : World) (n : nat) :
  frames w0 = [] ->
  1 <= total cfg ->
  (forall i c, raises cfg i c = false) ->
  Running cfg w0 (reached cfg n) (run cfg n (started cfg w0)).
Proof.
  intros Hf Ht Hr. unfold reached.
  destruct (Z.ltb_spec (Z.of_nat n) (total cfg)) as [Hlt|Hge].
  - rewrite Nat.min_l by lia. apply run_running; auto.
  - rewrite Nat.min_r by lia.
    assert (Hm : Running cfg w0 (S (Z.to_nat (total cfg) - 1))
                   (run cfg (Z.to_nat (total cfg) - 1) (started cfg w0))).
    { apply run_running; auto. lia. }
    replace (S (Z.to_nat (total cfg) - 1)) with (Z.to_nat (total cfg)) in Hm
      by lia.
    rewrite (run_stable cfg (Z.to_nat (total cfg) - 1) n); [exact Hm| |lia].
    apply (running_idle cfg w0 _ _ Hm). lia.
Qed.

(** ** Reading the trace of a run *)

Lemma seeAll_app (s : Seen) (a b : list Event) :
  seeAll s (a ++ b) = seeAll (seeAll s a) b.
Proof. apply fold_left_app. Qed.

Lemma annotate_app (s : Seen) (a b : list Event) :
  annotate s (a ++ b) = annotate s a ++ annotate (seeAll s a) b.
Proof.
  revert s. induction a as [|e a IH]; intros s; cbn; [reflexivity|].
  rewrite IH. reflexivity.
Qed.

Lemma collect_app {A} (f : Seen * Event -> list A) (s : Seen)
    (a b : list Event) :
  collect f s (a ++ b) = collect f s a ++ collect f (seeAll s a) b.
Proof. unfold collect. rewrite annotate_app, flat_map_app. reflexivity. Qed.

Lemma seeAll_stepEvents (cfg : Config) (r : nat) (z : bool) (i : Z) (s : Seen) :
  seeAll s (stepEvents cfg r z i) = mkSeen i (seenDepth s).
Proof.
  unfold stepEvents. destruct s as [j d].
  destruct (Z.rem i (cadence cfg) =? 0); destruct (i <? total cfg);
    reflexivity.
Qed.

Lemma seeAll_startEvents (cfg : Config) (r : nat) :
  seeAll seen0 (startEvents cfg r) = mkSeen 1 0.
Proof.
  unfold startEvents.
  rewrite seeAll_app, seeAll_app, seeAll_stepEvents. reflexivity.
Qed.

Lemma seeAll_runEvents (cfg : Config) (r m : nat) :
  seeAll seen0 (runEvents cfg r m) = mkSeen (Z.of_nat (S m)) 0.
Proof.
  unfold runEvents. rewrite seeAll_app, seeAll_startEvents.
  induction m as [|m IH]; [reflexivity|].
  rewrite laterEvents_S, seeAll_app, IH, seeAll_stepEvents. reflexivity.
Qed.

Lemma runEvents_S (cfg : Config) (r m : nat) :
  runEvents cfg r (S m) =
  runEvents cfg r m ++ stepEvents cfg r false (Z.of_nat (S (S m))).
Proof. unfold runEvents. rewrite laterEvents_S, app_assoc. reflexivity. Qed.

(** What holds of everything collected in the prologue and in each unit
    of work holds of everything collected in the run. *)
Lemma collect_runEvents_Forall {A} (f : Seen * Event -> list A)
    (P : A -> Prop) (cfg : Config) (r m : nat) :
  Forall P (collect f seen0 (startEvents cfg r)) ->
  (forall j, (1 <= j <= m)%nat ->
     Forall P (collect f (mkSeen (Z.of_nat j) 0)
                 (stepEvents cfg r false (Z.of_nat (S j))))) ->
  Forall P (collect f seen0 (runEvents cfg r m)).
Proof.
  intros H0 Hs. induction m as [|m IH].
  - unfold runEvents, laterEvents. cbn [seq flat_map].
    rewrite app_nil_r. exact H0.
  - rewrite runEvents_S, collect_app, seeAll_runEvents.
    apply Forall_app. split.
    + apply IH. intros j Hj. apply Hs. lia.
    + apply Hs. lia.
Qed.

(** ** Rounding *)


Lemma percent_0 (cfg : Config) : percent cfg 0 = 0.
Proof.
  unfold percent, Math_round.
  assert (H : (inject_Z 0 / inject_Z (total cfg) * inject_Z 100 + (1 # 2)
               == 1 # 2)%Q) by (unfold Qdiv; ring).
  rewrite H. reflexivity.
Qed.



(** ** The start of a run, from any world *)

Lemma started_source (w : World) :
  started source w =
  mkWorld 0 true false (zone w) (counters w ++ [1])
          (frames w ++ [(false, length (counters w))])
          (trace w ++ startEvents source (length (counters w))).
Proof.
  destruct w as [p l a z c f t].
  unfold started, stepped, startEvents, stepEvents.
  change (1 <? total source) with true.
  change (Z.rem 1 (cadence source) =? 0) with false.
  cbv beta iota delta
    [emit setZone progress loading inAngularZone zone counters frames trace].
  rewrite insert_app_r_alt by reflexivity. rewrite Nat.sub_diag.
  repeat rewrite <- app_assoc. reflexivity.
Qed.

Lemma runOutsideAngular_source (w : World) :
  runOutsideAngular source w = Ok tt (started source w).
Proof. apply start_ok. reflexivity. Qed.

(** ** What a run publishes *)





(** ** When [loading] is written *)

Lemma loadingSet_stepEvents (cfg : Config) (r : nat) (j i : Z) :
  collect loadingSet (mkSeen j 0) (stepEvents cfg r false i) =
  if i <? total cfg then [] else [(i, true, false)].
Proof.
  unfold stepEvents.
  destruct (Z.rem i (cadence cfg) =? 0); destruct (i <? total cfg);
    reflexivity.
Qed.

Lemma loadingSets_startEvents (cfg : Config) (r : nat) :
  loadingSets (startEvents cfg r) =
  (0, false, true) :: (if 1 <? total cfg then [] else [(1, true, false)]).
Proof.
  unfold loadingSets, startEvents. rewrite collect_app, collect_app.
  change (seeAll seen0 _) with seen0 at 1.
  unfold seen0 at 2. rewrite loadingSet_stepEvents.
  destruct (1 <? total cfg); reflexivity.
Qed.

Lemma loadingSets_runEvents (cfg : Config) (r m : nat) :
  Z.of_nat (S m) <= total cfg ->
  loadingSets (runEvents cfg r m) =
  (0, false, true)
    :: (if Z.of_nat (S m) <? total cfg then [] else [(total cfg, true, false)]).
Proof.
  induction m as [|m IH]; intros Hle.
  - unfold runEvents, laterEvents. cbn [seq flat_map]. rewrite app_nil_r.
    rewrite loadingSets_startEvents. change (Z.of_nat 1) with 1 in *.
    destruct (Z.ltb_spec 1 (total cfg)); [reflexivity|].
    replace (total cfg) with 1 by lia. reflexivity.
  - unfold loadingSets in *.
    rewrite runEvents_S, collect_app, seeAll_runEvents, IH by lia.
    rewrite loadingSet_stepEvents.
    destruct (Z.ltb_spec (Z.of_nat (S m)) (total cfg)); [|lia].
    destruct (Z.ltb_spec (Z.of_nat (S (S m))) (total cfg)); [reflexivity|].
    replace (total cfg) with (Z.of_nat (S (S m))) by lia. reflexivity.
Qed.

(** ** When [inAngularZone] is written *)

(** Whatever [f] collects is matched, through [h], by something [g]
    collects, in the run if in the prologue and in each unit of work. *)
Lemma collect_runEvents_In {A B} (f : Seen * Event -> list A)
    (g : Seen * Event -> list B) (h : A -> B) (cfg : Config) (r m : nat) :
  (forall x, In x (collect f seen0 (startEvents cfg r)) ->
             In (h x) (collect g seen0 (startEvents cfg r))) ->
  (forall j x, (1 <= j <= m)%nat ->
     In x (collect f (mkSeen (Z.of_nat j) 0)
             (stepEvents cfg r false (Z.of_nat (S j)))) ->
     In (h x) (collect g (mkSeen (Z.of_nat j) 0)
                 (stepEvents cfg r false (Z.of_nat (S j))))) ->
  forall x, In x (collect f seen0 (runEvents cfg r m)) ->
            In (h x) (collect g seen0 (runEvents cfg r m)).
Proof.
  intros H0 Hs. induction m as [|m IH]; intros x.
  - unfold runEvents, laterEvents. cbn [seq flat_map].
    rewrite app_nil_r. apply H0.
  - rewrite runEvents_S, !collect_app, seeAll_runEvents.
    rewrite !in_app_iff. intros [Hx|Hx].
    + left. apply IH; [|exact Hx]. intros j y Hj. apply Hs. lia.
    + right. apply Hs; [lia|exact Hx].
Qed.

Lemma zoneWritten_stepEvents (cfg : Config) (r : nat) (j i : Z) :
  Forall (fun x => snd x = snd (fst x))
         (collect zoneWritten (mkSeen j 0) (stepEvents cfg r false i)).
Proof.
  unfold stepEvents.
  destruct (Z.rem i (cadence cfg) =? 0); destruct (i <? total cfg);
    read_trace; repeat (apply List.Forall_cons || apply List.Forall_nil);
    reflexivity.
Qed.

Lemma zoneWritten_startEvents (cfg : Config) (r : nat) :
  Forall (fun x => snd x = snd (fst x))
         (collect zoneWritten seen0 (startEvents cfg r)).
Proof.
  unfold startEvents. rewrite collect_app, collect_app.
  change (seeAll seen0 _) with seen0 at 1.
  rewrite !Forall_app. repeat split.
  - read_trace. apply List.Forall_cons; [reflexivity|apply List.Forall_nil].
  - apply zoneWritten_stepEvents.
  - read_trace. apply List.Forall_nil.
Qed.

Lemma begun_requeried_stepEvents (cfg : Config) (r : nat) (j i x : Z) :
  In x (collect begun (mkSeen j 0) (stepEvents cfg r false i)) ->
  In (x, false, false)
     (collect zoneWritten (mkSeen j 0) (stepEvents cfg r false i)).
Proof.
  unfold stepEvents.
  destruct (Z.rem i (cadence cfg) =? 0); destruct (i <? total cfg);
    read_trace; cbn [In]; intros [<-|[]]; left; reflexivity.
Qed.

Lemma fired_requeried_stepEvents (cfg : Config) (r : nat) (j i x : Z) :
  In x (collect fired (mkSeen j 0) (stepEvents cfg r false i)) ->
  In (x, true, true)
     (collect zoneWritten (mkSeen j 0) (stepEvents cfg r false i)).
Proof.
  unfold stepEvents.
  destruct (Z.rem i (cadence cfg) =? 0); destruct (i <? total cfg);
    read_trace; cbn [In]; intuition (subst; auto).
Qed.

Lemma begun_requeried_startEvents (cfg : Config) (r : nat) (x : Z) :
  In x (collect begun seen0 (startEvents cfg r)) ->
  In (x, false, false) (collect zoneWritten seen0 (startEvents cfg r)).
Proof.
  unfold startEvents. rewrite !collect_app.
  change (seeAll seen0 _) with seen0 at 1 3.
  rewrite !in_app_iff. intros [[]|[Hx|[]]].
  right. left. apply begun_requeried_stepEvents, Hx.
Qed.

Lemma fired_requeried_startEvents (cfg : Config) (r : nat) (x : Z) :
  In x (collect fired seen0 (startEvents cfg r)) ->
  In (x, true, true) (collect zoneWritten seen0 (startEvents cfg r)).
Proof.
  unfold startEvents. rewrite !collect_app.
  change (seeAll seen0 _) with seen0 at 1 3.
  rewrite !in_app_iff. intros [[]|[Hx|[]]].
  right. left. apply fired_requeried_stepEvents, Hx.
Qed.

(** ** Runs to the end *)

(** From the frame that completes the run on, the events of the run are
    those of all its units of work. *)
Lemma run_complete (cfg : Config) (w0 : World) (n : nat) :
  frames w0 = [] ->
  1 <= total cfg ->
  (forall i c, raises cfg i c = false) ->
  total cfg <= Z.of_nat n + 1 ->
  trace (run cfg n (started cfg w0)) =
  trace w0 ++ runEvents cfg (length (counters w0)) (Z.to_nat (total cfg) - 1).
Proof.
  intros Hf Ht Hr Hn.
  destruct (run_reached cfg w0 n Hf Ht Hr) as [_ _ _ _ _ Htr].
  rewrite Htr. unfold reached. rewrite Nat.min_r by lia.
  rewrite Nat.sub_1_r. reflexivity.
Qed.

(** ** A call that raises *)

Lemma Call_eqb_refl (c : Call) : Call_eqb c c = true.
Proof. destruct c; reflexivity. Qed.

(** A unit of work whose checkpoint callback raises: the exception leaves
    [step], which therefore neither requests a frame nor completes. *)
Lemma step_throws (cfg : Config) (r : nat) (w : World) (i : Z) :
  counters w !! r = Some i ->
  Z.rem (i + 1) (cadence cfg) = 0 ->
  (exists c, raises cfg (i + 1) c = true) ->
  exists w', step cfg r w = Throw w' /\
    loading w' = loading w /\
    frames w' = frames w /\
    counters w' = <[r := i + 1]> (counters w) /\
    zone w' = zone w /\
    exists tr, trace w' = trace w ++ tr.
Proof.
  intros Hi Hc Hr. destruct w as [p l a z cs f t].
  cbn [counters] in Hi.
  unfold step, checkpoint, bind at 1, incr. cbn [counters]. rewrite Hi.
  cbv beta iota. rewrite (proj2 (Z.eqb_eq _ _) Hc).
  destruct (raises cfg (i + 1) CallLog) eqn:E1;
    destruct (raises cfg (i + 1) CallProgressSet) eqn:E2;
    destruct (raises cfg (i + 1) CallCheckZone) eqn:E3;
    destruct (raises cfg (i + 1) CallSetTimeout) eqn:E4;
    try (destruct Hr as [[] Hr]; congruence);
    exec; eexists; (split; [reflexivity|]);
    cbn [progress loading inAngularZone zone counters frames trace];
    repeat split; eexists; repeat rewrite <- app_assoc; reflexivity.
Qed.

Lemma frame_throws (cfg : Config) (w : World) (z : bool) (r : nat) (i : Z) :
  frames w = [(z, r)] ->
  counters w !! r = Some i ->
  Z.rem (i + 1) (cadence cfg) = 0 ->
  (exists c, raises cfg (i + 1) c = true) ->
  loading (frame cfg w) = loading w /\
  frames (frame cfg w) = [] /\
  counters (frame cfg w) = <[r := i + 1]> (counters w) /\
  exists tr, trace (frame cfg w) = trace w ++ tr ++ [Uncaught].
Proof.
  intros Hf Hi Hc Hr. destruct w as [p l a z0 cs f t].
  cbn [frames counters] in Hf, Hi. subst f.
  unfold frame. cbn [frames fold_left]. unfold runTask. cbn [fst snd].
  destruct (step_throws cfg r
              (setZone z (setFrames [] (mkWorld p l a z0 cs [(z, r)] t))) i)
    as (w' & -> & Hl & Hq & Hcs & _ & tr & Htr); auto.
  destruct w' as [p' l' a' z' cs' f' t'].
  cbn in Hl, Hq, Hcs, Htr |- *. subst.
  repeat split. exists tr. rewrite <- app_assoc. reflexivity.
Qed.

(** ** The claims *)

(** C9: [checkZone] writes only the [inAngularZone] output, with the
    current zone; [progress], [loading], the iteration counters, the pending
    frame callbacks and the zone itself are as before. *)
Theorem checkZone_writes_only_inAngularZone (w : World) :
  exists w', checkZone w = Ok tt w' /\
    inAngularZone w' = zone w /\
    progress w' = progress w /\
    loading w' = loading w /\
    counters w' = counters w /\
    frames w' = frames w /\
    zone w' = zone w /\
    trace w' = trace w ++ [InAngularZoneSet (zone w)].
Proof.
  eexists. split; [reflexivity|]. repeat split.
Qed.

(** C10: [runOutsideAngular] returns with [loading] true, [progress] 0 and
    the first unit of work done (its counter is 1, and exactly one unit was
    begun before the return); the next unit is a pending frame callback. *)
Theorem runOutsideAngular_runs_first_unit (w : World) :
  exists w' tr, runOutsideAngular source w = Ok tt w' /\
    loading w' = true /\
    progress w' = 0 /\
    counters w' = counters w ++ [1] /\
    frames w' = frames w ++ [(false, length (counters w))] /\
    trace w' = trace w ++ tr /\
    units tr = [1].
Proof.
  exists (started source w), (startEvents source (length (counters w))).
  split; [apply runOutsideAngular_source|].
  rewrite started_source. repeat split.
Qed.

(** C2, as stated, fails: with a run active, a second start returns
    normally. *)
Lemma second_start_not_rejected :
  ~ rejectsSecondStart source (after (runOutsideAngular source) initial).
Proof.
  intros H. specialize (H eq_refl).
  rewrite runOutsideAngular_source in H. discriminate H.
Qed.

(** C2, amended: with a run active, a second start does not fail; it
    leaves every existing iteration counter and pending callback as it is,
    gives the new loop a counter of its own (already at 1) and queues it
    behind the others, and it sets [loading] to true and [progress] back to
    0. *)
Theorem second_start_accepted (w : World) :
  loading w = true ->
  exists w', runOutsideAngular source w = Ok tt w' /\
    counters w' = counters w ++ [1] /\
    frames w' = frames w ++ [(false, length (counters w))] /\
    loading w' = true /\
    progress w' = 0.
Proof.
  intros _. exists (started source w).
  split; [apply runOutsideAngular_source|].
  rewrite started_source. repeat split.
Qed.

Lemma second_start_accepted_witness :
  exists w', runOutsideAngular source (after (runOutsideAngular source) initial)
             = Ok tt w' /\
    counters w' = [1; 1] /\
    frames w' = [(false, 0%nat); (false, 1%nat)] /\
    loading w' = true /\
    progress w' = 0.
Proof.
  apply (second_start_accepted (after (runOutsideAngular source) initial)).
  reflexivity.
Defined.

(** C4, amended: in a run started while no other run is pending, after
    the start and after every frame, the iteration counter [i] of the run
    satisfies 0 <= i <= total, and [loading] is true exactly while
    i < total: it is false from the unit of work that reaches the total. *)
Theorem iteration_bounded_loading_until_total
    (t c : Z) (w0 : World) (n : nat) :
  1 <= t ->
  frames w0 = [] ->
  exists w1 i, runOutsideAngular (mkConfig t c noRaise) w0 = Ok tt w1 /\
    counters (run (mkConfig t c noRaise) n w1) !! length (counters w0)
      = Some i /\
    i = Z.min (Z.of_nat n + 1) t /\
    0 <= i <= t /\
    loading (run (mkConfig t c noRaise) n w1) = (i <? t) /\
    (loading (run (mkConfig t c noRaise) n w1) = false <-> i = t).
Proof.
  intros Ht Hf. set (cfg := mkConfig t c noRaise).
  exists (started cfg w0), (Z.of_nat (reached cfg n)).
  split; [apply start_ok; reflexivity|].
  destruct (run_reached cfg w0 n Hf Ht (fun _ _ => eq_refl))
    as [Hc _ Hl _ _ _].
  assert (Hi : Z.of_nat (reached cfg n) = Z.min (Z.of_nat n + 1) t).
  { unfold reached. cbn [total cfg]. lia. }
  split; [rewrite Hc; apply list_lookup_middle; reflexivity|].
  split; [exact Hi|]. split; [lia|].
  split; [exact Hl|]. rewrite Hl. cbn [total cfg].
  destruct (Z.ltb_spec (Z.of_nat (reached cfg n)) t); split; intros; try lia;
    try reflexivity; discriminate.
Qed.

Lemma iteration_bounded_loading_until_total_witness :
  exists w1 i, runOutsideAngular source initial = Ok tt w1 /\
    counters (run source 5 w1) !! length (counters initial) = Some i /\
    i = Z.min (Z.of_nat 5 + 1) 3000 /\
    0 <= i <= 3000 /\
    loading (run source 5 w1) = (i <? 3000) /\
    (loading (run source 5 w1) = false <-> i = 3000).
Proof.
  apply (iteration_bounded_loading_until_total 3000 500 initial 5).
  - lia.
  - reflexivity.
Defined.



(** C6, amended: in a run started while nothing is pending and [loading]
    is false, [loading] is written true once, by the start (before the first
    unit of work, outside any callback), and false once, by the callback of
    the unit of work that reaches the total; at rest it is true after every
    earlier unit of work and false from then on: false, true, false. *)
Theorem loading_true_from_start_to_completion
    (t c : Z) (w0 : World) (n : nat) :
  1 <= t ->
  frames w0 = [] ->
  loading w0 = false ->
  exists w1 tr, runOutsideAngular (mkConfig t c noRaise) w0 = Ok tt w1 /\
    trace (run (mkConfig t c noRaise) n w1) = trace w0 ++ tr /\
    loading (run (mkConfig t c noRaise) n w1) = (Z.of_nat n + 1 <? t) /\
    loadingSets tr =
      (0, false, true)
        :: (if Z.of_nat n + 1 <? t then [] else [(t, true, false)]) /\
    loading w0 :: map snd (loadingSets tr) =
      false :: true :: (if Z.of_nat n + 1 <? t then [] else [false]).
Proof.
  intros Ht Hf Hl0. set (cfg := mkConfig t c noRaise).
  exists (started cfg w0),
         (runEvents cfg (length (counters w0)) (pred (reached cfg n))).
  split; [apply start_ok; reflexivity|].
  destruct (run_reached cfg w0 n Hf Ht (fun _ _ => eq_refl))
    as [_ _ Hl _ _ Htr].
  assert (Hb : (Z.of_nat (reached cfg n) <? t) = (Z.of_nat n + 1 <? t)).
  { unfold reached. cbn [total cfg].
    destruct (Z.ltb_spec (Z.of_nat n + 1) t);
      destruct (Z.ltb_spec (Z.of_nat (Nat.min (S n) (Z.to_nat t))) t);
      try reflexivity; lia. }
  assert (Hs : loadingSets
                 (runEvents cfg (length (counters w0)) (pred (reached cfg n)))
               = (0, false, true)
                   :: (if Z.of_nat n + 1 <? t then [] else [(t, true, false)])).
  { rewrite loadingSets_runEvents.
    - replace (S (pred (reached cfg n))) with (reached cfg n)
        by (unfold reached; cbn [total cfg]; lia).
      cbn [total cfg]. rewrite Hb. reflexivity.
    - unfold reached. cbn [total cfg]. lia. }
  split; [exact Htr|]. split; [rewrite Hl; exact Hb|].
  split; [exact Hs|]. rewrite Hs, Hl0.
  destruct (Z.of_nat n + 1 <? t); reflexivity.
Qed.

Lemma loading_true_from_start_to_completion_witness :
  exists w1 tr, runOutsideAngular source initial = Ok tt w1 /\
    trace (run source 2999 w1) = trace initial ++ tr /\
    loading (run source 2999 w1) = (Z.of_nat 2999 + 1 <? 3000) /\
    loadingSets tr =
      (0, false, true)
        :: (if Z.of_nat 2999 + 1 <? 3000 then [] else [(3000, true, false)]) /\
    loading initial :: map snd (loadingSets tr) =
      false :: true :: (if Z.of_nat 2999 + 1 <? 3000 then [] else [false]).
Proof.
  apply (loading_true_from_start_to_completion 3000 500 initial 2999).
  - lia.
  - reflexivity.
  - reflexivity.
Defined.

(** C8, as stated, fails: at rest after the unit of work 500, whose
    checkpoint callback has returned, [inAngularZone] still reads true. *)
Lemma inAngularZone_true_after_checkpoint_returned :
  ~ trueOnlyInCallback (run source 499 (after (runOutsideAngular source) initial)).
Proof.
  intros H.
  assert (Hd : seenDepth (seeAll seen0 (trace
                 (run source 499 (after (runOutsideAngular source) initial))))
               = 0%nat) by (vm_compute; reflexivity).
  assert (Hz : inAngularZone
                 (run source 499 (after (runOutsideAngular source) initial))
               = true) by (vm_compute; reflexivity).
  specialize (H Hz). rewrite Hd in H. inversion H.
Qed.

(** C8, amended: [inAngularZone] is written true only inside a checkpoint
    or completion callback and false only outside one, and it keeps the
    last value written: at rest after a unit of work it is true exactly
    when that unit ran a callback (the iteration is a multiple of the
    cadence or the total), false after every other unit.  It is written in
    every unit of work, after the increment and outside any callback, and
    inside every callback that fires. *)
Theorem inAngularZone_written_in_every_unit_and_callback
    (t c : Z) (w0 : World) (n : nat) :
  1 <= t ->
  frames w0 = [] ->
  exists w1 tr i, runOutsideAngular (mkConfig t c noRaise) w0 = Ok tt w1 /\
    trace (run (mkConfig t c noRaise) n w1) = trace w0 ++ tr /\
    i = Z.min (Z.of_nat n + 1) t /\
    inAngularZone (run (mkConfig t c noRaise) n w1)
      = (Z.rem i c =? 0) || (i =? t) /\
    Forall (fun x => snd x = snd (fst x)) (zoneWrites tr) /\
    (forall j, In j (units tr) -> In (j, false, false) (zoneWrites tr)) /\
    (forall j, In j (firings tr) -> In (j, true, true) (zoneWrites tr)).
Proof.
  intros Ht Hf. set (cfg := mkConfig t c noRaise).
  exists (started cfg w0),
         (runEvents cfg (length (counters w0)) (pred (reached cfg n))),
         (Z.of_nat (reached cfg n)).
  split; [apply start_ok; reflexivity|].
  destruct (run_reached cfg w0 n Hf Ht (fun _ _ => eq_refl))
    as [_ _ _ Ha _ Htr].
  assert (Hi : Z.of_nat (reached cfg n) = Z.min (Z.of_nat n + 1) t).
  { unfold reached. cbn [total cfg]. lia. }
  split; [exact Htr|]. split; [exact Hi|]. split.
  { rewrite Ha. cbn [total cadence cfg]. f_equal.
    destruct (Z.ltb_spec (Z.of_nat (reached cfg n)) t);
      destruct (Z.eqb_spec (Z.of_nat (reached cfg n)) t);
      try reflexivity; lia. }
  split; [|split].
  - apply (collect_runEvents_Forall zoneWritten).
    + apply zoneWritten_startEvents.
    + intros j _. apply zoneWritten_stepEvents.
  - apply (collect_runEvents_In begun zoneWritten (fun j => (j, false, false))).
    + apply begun_requeried_startEvents.
    + intros j x _. apply begun_requeried_stepEvents.
  - apply (collect_runEvents_In fired zoneWritten (fun j => (j, true, true))).
    + apply fired_requeried_startEvents.
    + intros j x _. apply fired_requeried_stepEvents.
Qed.

Lemma inAngularZone_written_in_every_unit_and_callback_witness :
  exists w1 tr i, runOutsideAngular source initial = Ok tt w1 /\
    trace (run source 499 w1) = trace initial ++ tr /\
    i = Z.min (Z.of_nat 499 + 1) 3000 /\
    inAngularZone (run source 499 w1) = (Z.rem i 500 =? 0) || (i =? 3000) /\
    Forall (fun x => snd x = snd (fst x)) (zoneWrites tr) /\
    (forall j, In j (units tr) -> In (j, false, false) (zoneWrites tr)) /\
    (forall j, In j (firings tr) -> In (j, true, true) (zoneWrites tr)).
Proof.
  apply (inAngularZone_written_in_every_unit_and_callback 3000 500 initial 499).
  - lia.
  - reflexivity.
Defined.

(** C1, as stated, fails: the values published in a run are not the six
    values 17, 33, 50, 67, 83, 100 only. *)
Lemma progress_not_published_six_times :
  ~ publishedExactly [17; 33; 50; 67; 83; 100]
      (since initial (run source 2999 (after (runOutsideAngular source) initial))).
Proof.
  unfold publishedExactly.
  assert (H : map snd (publications (since initial
                (run source 2999 (after (runOutsideAngular source) initial))))
              = [0; 17; 33; 50; 67; 83; 100; 100]) by (vm_compute; reflexivity).
  rewrite H. discriminate.
Qed.

(** C1, amended: in a run with total 3000 and cadence 500, [progress] is
    published eight times: 0 by the start, then 17, 33, 50, 67, 83, 100 by
    the six periodic checkpoints at i = 500, 1000, ..., 3000, each equal to
    round(i / total * 100), then 100 once more by the completion callback
    at i = 3000; the values are in non-decreasing order. *)
Theorem progress_publications_of_a_run (w0 : World) (n : nat) :
  frames w0 = [] ->
  (2999 <= n)%nat ->
  exists w1 tr, runOutsideAngular source w0 = Ok tt w1 /\
    trace (run source n w1) = trace w0 ++ tr /\
    publications tr =
      [(0, false, 0); (500, true, 17); (1000, true, 33); (1500, true, 50);
       (2000, true, 67); (2500, true, 83); (3000, true, 100);
       (3000, true, 100)] /\
    firings tr = [500; 1000; 1500; 2000; 2500; 3000; 3000] /\
    Forall (fun p => snd p = percent source (fst (fst p))) (publications tr) /\
    Sorted Z.le (map snd (publications tr)).
Proof.
  intros Hf Hn.
  exists (started source w0),
         (runEvents source (length (counters w0)) (Z.to_nat (total source) - 1)).
  split; [apply runOutsideAngular_source|].
  split; [apply run_complete; cbn [total source]; auto; lia|].
  generalize (length (counters w0)). intros r.
  assert (Hp : publications (runEvents source r (Z.to_nat (total source) - 1))
               = [(0, false, 0); (500, true, 17); (1000, true, 33);
                  (1500, true, 50); (2000, true, 67); (2500, true, 83);
                  (3000, true, 100); (3000, true, 100)])
    by (vm_compute; reflexivity).
  split; [exact Hp|].
  split; [vm_compute; reflexivity|].
  rewrite Hp. split.
  - repeat (apply List.Forall_cons || apply List.Forall_nil);
      vm_compute; reflexivity.
  - cbn [map snd]. repeat constructor; lia.
Qed.

Lemma progress_publications_of_a_run_witness :
  exists w1 tr, runOutsideAngular source initial = Ok tt w1 /\
    trace (run source 2999 w1) = trace initial ++ tr /\
    publications tr =
      [(0, false, 0); (500, true, 17); (1000, true, 33); (1500, true, 50);
       (2000, true, 67); (2500, true, 83); (3000, true, 100);
       (3000, true, 100)] /\
    firings tr = [500; 1000; 1500; 2000; 2500; 3000; 3000] /\
    Forall (fun p => snd p = percent source (fst (fst p))) (publications tr) /\
    Sorted Z.le (map snd (publications tr)).
Proof.
  apply (progress_publications_of_a_run initial 2999).
  - reflexivity.
  - lia.
Defined.

(** C3, as stated, fails: with total 10 and cadence 5 the callbacks do not
    fire once at iteration 5 and once at iteration 10. *)
Lemma scenario_fires_twice_at_the_total :
  ~ firesExactlyAt [5; 10]
      (since initial (run scenario 9 (after (runOutsideAngular scenario) initial))).
Proof.
  unfold firesExactlyAt.
  assert (H : firings (since initial
                (run scenario 9 (after (runOutsideAngular scenario) initial)))
              = [5; 10; 10]) by (vm_compute; reflexivity).
  rewrite H. discriminate.
Qed.

(** C3, amended: with total 10 and cadence 5, the periodic checkpoint
    fires at iteration 5, publishing 50, and at iteration 10, publishing
    100; at iteration 10 the completion callback fires as well, setting
    [loading] to false and publishing 100 again: three callbacks, two of
    them at iteration 10. *)
Theorem scenario_callbacks (w0 : World) (n : nat) :
  frames w0 = [] ->
  (9 <= n)%nat ->
  exists w1 tr, runOutsideAngular scenario w0 = Ok tt w1 /\
    trace (run scenario n w1) = trace w0 ++ tr /\
    firings tr = [5; 10; 10] /\
    publications tr =
      [(0, false, 0); (5, true, 50); (10, true, 100); (10, true, 100)] /\
    loadingSets tr = [(0, false, true); (10, true, false)] /\
    loading (run scenario n w1) = false.
Proof.
  intros Hf Hn.
  exists (started scenario w0),
         (runEvents scenario (length (counters w0))
                    (Z.to_nat (total scenario) - 1)).
  split; [apply start_ok; reflexivity|].
  split; [apply run_complete; cbn [total scenario]; auto; lia|].
  split; [|split; [|split]].
  - generalize (length (counters w0)). intros r. vm_compute. reflexivity.
  - generalize (length (counters w0)). intros r. vm_compute. reflexivity.
  - generalize (length (counters w0)). intros r. vm_compute. reflexivity.
  - destruct (run_reached scenario w0 n Hf ltac:(cbn; lia) (fun _ _ => eq_refl))
      as [_ _ Hl _ _ _].
    rewrite Hl. unfold reached. cbn [total scenario].
    apply Z.ltb_ge. lia.
Qed.

Lemma scenario_callbacks_witness :
  exists w1 tr, runOutsideAngular scenario initial = Ok tt w1 /\
    trace (run scenario 9 w1) = trace initial ++ tr /\
    firings tr = [5; 10; 10] /\
    publications tr =
      [(0, false, 0); (5, true, 50); (10, true, 100); (10, true, 100)] /\
    loadingSets tr = [(0, false, true); (10, true, false)] /\
    loading (run scenario 9 w1) = false.
Proof.
  apply (scenario_callbacks initial 9).
  - reflexivity.
  - lia.
Defined.

(** C7: when a call of the checkpoint callback raises at iteration [i0],
    nothing catches the exception: it reaches the host, the unit of work
    ends without requesting another frame, so no further unit of work runs
    (no callback is pending and the counter stays at [i0]), and [loading]
    stays true. *)
Theorem checkpoint_exception_ends_loop_loading_stays_true
    (t c i0 : Z) (c0 : Call) (w0 : World) (n : nat) :
  2 <= i0 <= t ->
  Z.rem i0 c = 0 ->
  frames w0 = [] ->
  i0 - 1 <= Z.of_nat n ->
  exists w1 tr,
    runOutsideAngular (mkConfig t c (raiseAt i0 c0)) w0 = Ok tt w1 /\
    trace (run (mkConfig t c (raiseAt i0 c0)) n w1)
      = trace w0 ++ tr ++ [Uncaught] /\
    loading (run (mkConfig t c (raiseAt i0 c0)) n w1) = true /\
    frames (run (mkConfig t c (raiseAt i0 c0)) n w1) = [] /\
    counters (run (mkConfig t c (raiseAt i0 c0)) n w1) = counters w0 ++ [i0].
Proof.
  intros Hi0 Hc Hf Hn. set (cfg := mkConfig t c (raiseAt i0 c0)).
  set (m := (Z.to_nat i0 - 2)%nat).
  assert (Hm : Z.of_nat (S m) + 1 = i0) by lia.
  assert (Hquiet : forall i c', 1 <= i <= Z.of_nat (S m) ->
                                raises cfg i c' = false).
  { intros i c' Hi. cbn [raises cfg]. unfold raiseAt.
    destruct (Z.eqb_spec i i0); [lia|reflexivity]. }
  assert (Hrun : Running cfg w0 (S m) (run cfg m (started cfg w0))).
  { apply run_running; [exact Hf|cbn [total cfg]; lia|exact Hquiet]. }
  destruct Hrun as [Hcs Hfs Hl _ _ Htr].
  cbn [total cfg] in Hfs, Hl.
  destruct (Z.ltb_spec (Z.of_nat (S m)) t) as [_|]; [|lia].
  destruct (frame_throws cfg (run cfg m (started cfg w0)) false
              (length (counters w0)) (Z.of_nat (S m)))
    as (Hl' & Hf' & Hcs' & tr & Htr').
  { exact Hfs. }
  { rewrite Hcs. apply list_lookup_middle. reflexivity. }
  { rewrite Hm. exact Hc. }
  { exists c0. rewrite Hm. cbn [raises cfg]. unfold raiseAt.
    rewrite Z.eqb_refl, Call_eqb_refl. reflexivity. }
  exists (started cfg w0),
         (runEvents cfg (length (counters w0)) (pred (S m)) ++ tr).
  split.
  { apply start_ok. intros c'. apply Hquiet. lia. }
  rewrite (run_stable cfg (S m) n) by (first [exact Hf'|lia]).
  cbn [run]. rewrite Htr', Htr, Hl', Hl, Hf', Hcs', Hcs.
  rewrite insert_app_r_alt by reflexivity. rewrite Nat.sub_diag, Hm.
  repeat split. rewrite <- !app_assoc. reflexivity.
Qed.

Lemma checkpoint_exception_ends_loop_loading_stays_true_witness :
  exists w1 tr,
    runOutsideAngular (mkConfig 3000 500 (raiseAt 1000 CallProgressSet)) initial
      = Ok tt w1 /\
    trace (run (mkConfig 3000 500 (raiseAt 1000 CallProgressSet)) 1200 w1)
      = trace initial ++ tr ++ [Uncaught] /\
    loading (run (mkConfig 3000 500 (raiseAt 1000 CallProgressSet)) 1200 w1)
      = true /\
    frames (run (mkConfig 3000 500 (raiseAt 1000 CallProgressSet)) 1200 w1)
      = [] /\
    counters (run (mkConfig 3000 500 (raiseAt 1000 CallProgressSet)) 1200 w1)
      = counters initial ++ [1000].
Proof.
  apply (checkpoint_exception_ends_loop_loading_stays_true
           3000 500 1000 CallProgressSet initial 1200).
  - lia.
  - reflexivity.
  - reflexivity.
  - lia.
Defined.

(** ** Beyond the claims: the shape of a run *)

Lemma runTask_ok (cfg : Config) (w : World) (z : bool) (r : nat) (i : Z) :
  counters w !! r = Some i ->
  (forall c, raises cfg (i + 1) c = false) ->
  runTask cfg (z, r) w = setZone (zone w) (stepped cfg r (i + 1) (setZone z w)).
Proof.
  intros Hi Hr. unfold runTask. cbn [fst snd].
  rewrite (step_ok cfg r _ i); [reflexivity| |exact Hr].
  destruct w; exact Hi.
Qed.

Lemma started_running (cfg : Config) (w : World) :
  1 < total cfg ->
  counters (started cfg w) = counters w ++ [1] /\
  frames (started cfg w) = frames w ++ [(false, length (counters w))] /\
  loading (started cfg w) = true /\
  zone (started cfg w) = zone w.
Proof.
  intros Ht. apply Z.ltb_lt in Ht. destruct w as [p l a z c f t].
  unfold started, stepped. rewrite Ht.
  cbv beta iota delta
    [emit setZone progress loading inAngularZone zone counters frames trace].
  rewrite insert_app_r_alt by reflexivity. rewrite Nat.sub_diag.
  repeat split.
Qed.

Lemma length_collect_app {A} (f : Seen * Event -> list A) (s : Seen)
    (a b : list Event) :
  length (collect f s (a ++ b)) =
  (length (collect f s a) + length (collect f (seeAll s a) b))%nat.
Proof. rewrite collect_app. apply length_app. Qed.

Lemma requested_stepEvents (cfg : Config) (r : nat) (s : Seen) (i : Z) :
  collect requested s (stepEvents cfg r false i) =
  if i <? total cfg then [r] else [].
Proof.
  unfold stepEvents.
  destruct (Z.rem i (cadence cfg) =? 0); destruct (i <? total cfg);
    reflexivity.
Qed.

Lemma requests_runEvents (cfg : Config) (r m : nat) :
  Z.of_nat (S m) <= total cfg ->
  requests (runEvents cfg r m) =
  repeat r (if Z.of_nat (S m) <? total cfg then S m else m).
Proof.
  unfold requests. induction m as [|m IH]; intros Hle.
  - unfold runEvents, laterEvents, startEvents. cbn [seq flat_map].
    rewrite app_nil_r, !collect_app, requested_stepEvents.
    change (Z.of_nat 1) with 1. destruct (1 <? total cfg); reflexivity.
  - rewrite runEvents_S, collect_app, IH, requested_stepEvents by lia.
    destruct (Z.ltb_spec (Z.of_nat (S m)) (total cfg)); [|lia].
    destruct (Z.ltb_spec (Z.of_nat (S (S m))) (total cfg)).
    + change [r] with (repeat r 1). rewrite <- repeat_app.
      f_equal. lia.
    + rewrite app_nil_r. reflexivity.
Qed.

Lemma begun_stepEvents (cfg : Config) (r : nat) (s : Seen) (i : Z) :
  collect begun s (stepEvents cfg r false i) = [i].
Proof.
  unfold stepEvents.
  destruct (Z.rem i (cadence cfg) =? 0); destruct (i <? total cfg);
    reflexivity.
Qed.

Lemma units_runEvents (cfg : Config) (r m : nat) :
  units (runEvents cfg r m) = map Z.of_nat (seq 1 (S m)).
Proof.
  unfold units. induction m as [|m IH].
  - unfold runEvents, laterEvents, startEvents. cbn [seq flat_map].
    rewrite app_nil_r, !collect_app, begun_stepEvents. reflexivity.
  - rewrite runEvents_S, collect_app, IH, begun_stepEvents.
    rewrite (seq_S (S m) 1), map_app. reflexivity.
Qed.

(** X1: a run keeps exactly one frame callback pending until the unit of
    work that reaches the total, and none from then on: it ends after
    total - 1 frames, having requested total - 1 frames in all. *)
Theorem run_requests_one_frame_per_unit
    (t c : Z) (w0 : World) (n : nat) :
  1 <= t ->
  frames w0 = [] ->
  exists w1 tr, runOutsideAngular (mkConfig t c noRaise) w0 = Ok tt w1 /\
    trace (run (mkConfig t c noRaise) n w1) = trace w0 ++ tr /\
    frames (run (mkConfig t c noRaise) n w1) =
      (if Z.of_nat n + 1 <? t then [(false, length (counters w0))] else []) /\
    requests tr =
      repeat (length (counters w0)) (Z.to_nat (Z.min (Z.of_nat n + 1) (t - 1))).
Proof.
  intros Ht Hf. set (cfg := mkConfig t c noRaise).
  exists (started cfg w0),
         (runEvents cfg (length (counters w0)) (pred (reached cfg n))).
  split; [apply start_ok; reflexivity|].
  destruct (run_reached cfg w0 n Hf Ht (fun _ _ => eq_refl))
    as [_ Hfr _ _ _ Htr].
  assert (Hk : S (pred (reached cfg n)) = reached cfg n)
    by (unfold reached; cbn [total cfg]; lia).
  split; [exact Htr|]. split.
  - rewrite Hfr. unfold reached. cbn [total cfg].
    destruct (Z.ltb_spec (Z.of_nat n + 1) t);
      destruct (Z.ltb_spec (Z.of_nat (Nat.min (S n) (Z.to_nat t))) t);
      try reflexivity; lia.
  - rewrite requests_runEvents by (rewrite Hk; unfold reached; cbn [total cfg]; lia).
    rewrite Hk. f_equal. unfold reached. cbn [total cfg].
    destruct (Z.ltb_spec (Z.of_nat (Nat.min (S n) (Z.to_nat t))) t); lia.
Qed.

Lemma run_requests_one_frame_per_unit_witness :
  exists w1 tr, runOutsideAngular source initial = Ok tt w1 /\
    trace (run source 4000 w1) = trace initial ++ tr /\
    frames (run source 4000 w1) =
      (if Z.of_nat 4000 + 1 <? 3000 then [(false, length (counters initial))]
       else []) /\
    requests tr =
      repeat (length (counters initial))
             (Z.to_nat (Z.min (Z.of_nat 4000 + 1) (3000 - 1))).
Proof.
  apply (run_requests_one_frame_per_unit 3000 500 initial 4000).
  - lia.
  - reflexivity.
Defined.

(** X2: the units of work of a run are the iterations 1, 2, ..., each
    begun exactly once and in increasing order, up to min(n + 1, total)
    after n frames. *)
Theorem run_units_in_order (t c : Z) (w0 : World) (n : nat) :
  1 <= t ->
  frames w0 = [] ->
  exists w1 tr, runOutsideAngular (mkConfig t c noRaise) w0 = Ok tt w1 /\
    trace (run (mkConfig t c noRaise) n w1) = trace w0 ++ tr /\
    units tr = map Z.of_nat (seq 1 (Nat.min (S n) (Z.to_nat t))).
Proof.
  intros Ht Hf. set (cfg := mkConfig t c noRaise).
  exists (started cfg w0),
         (runEvents cfg (length (counters w0)) (pred (reached cfg n))).
  split; [apply start_ok; reflexivity|].
  destruct (run_reached cfg w0 n Hf Ht (fun _ _ => eq_refl))
    as [_ _ _ _ _ Htr].
  split; [exact Htr|]. rewrite units_runEvents.
  replace (S (pred (reached cfg n))) with (reached cfg n)
    by (unfold reached; cbn [total cfg]; lia).
  reflexivity.
Qed.

Lemma run_units_in_order_witness :
  exists w1 tr, runOutsideAngular scenario initial = Ok tt w1 /\
    trace (run scenario 20 w1) = trace initial ++ tr /\
    units tr = map Z.of_nat (seq 1 (Nat.min (S 20) (Z.to_nat 10))).
Proof.
  apply (run_units_in_order 10 5 initial 20).
  - lia.
  - reflexivity.
Defined.

(** ** Beyond the claims: checkpoints *)

Lemma checkpoint_div (c i : Z) :
  0 < c -> 0 <= i ->
  if Z.rem (i + 1) c =? 0
  then (i + 1) / c = i / c + 1 /\ c * ((i + 1) / c) = i + 1
  else (i + 1) / c = i / c.
Proof.
  intros Hc Hi. rewrite Z.rem_mod_nonneg by lia.
  pose proof (Z.div_mod (i + 1) c ltac:(lia)) as H1.
  pose proof (Z.div_mod i c ltac:(lia)) as H2.
  pose proof (Z.mod_pos_bound (i + 1) c Hc) as B1.
  pose proof (Z.mod_pos_bound i c Hc) as B2.
  destruct (Z.eqb_spec ((i + 1) mod c) 0) as [E|E].
  - split; nia.
  - nia.
Qed.

Lemma fired_stepEvents (cfg : Config) (r : nat) (s : Seen) (i : Z) :
  length (collect fired s (stepEvents cfg r false i)) =
  ((if (Z.rem i (cadence cfg) =? 0)%Z then 1 else 0)
   + (if (i <? total cfg)%Z then 0 else 1))%nat.
Proof.
  unfold stepEvents.
  destruct (Z.rem i (cadence cfg) =? 0); destruct (i <? total cfg);
    reflexivity.
Qed.

Lemma firings_runEvents (cfg : Config) (r m : nat) :
  0 < cadence cfg ->
  Z.of_nat (S m) <= total cfg ->
  length (firings (runEvents cfg r m)) =
  (Z.to_nat (Z.of_nat (S m) / cadence cfg)
   + (if (Z.of_nat (S m) <? total cfg)%Z then 0 else 1))%nat.
Proof.
  intros Hc. unfold firings. induction m as [|m IH]; intros Hle.
  - unfold runEvents, laterEvents, startEvents. cbn [seq flat_map].
    rewrite app_nil_r, !length_collect_app, fired_stepEvents.
    change (Z.of_nat 1) with 1.
    pose proof (checkpoint_div (cadence cfg) 0 Hc ltac:(lia)) as H.
    change (0 + 1) with 1 in H. rewrite Z.div_0_l in H by lia.
    destruct (Z.rem 1 (cadence cfg) =? 0);
      [destruct H as [-> _]|rewrite H]; destruct (1 <? total cfg);
      reflexivity.
  - rewrite runEvents_S, length_collect_app, IH, fired_stepEvents by lia.
    pose proof (checkpoint_div (cadence cfg) (Z.of_nat (S m)) Hc ltac:(lia))
      as H.
    replace (Z.of_nat (S m) + 1) with (Z.of_nat (S (S m))) in H by lia.
    assert (Hq : 0 <= Z.of_nat (S m) / cadence cfg)
      by (apply Z.div_pos; lia).
    destruct (Z.ltb_spec (Z.of_nat (S m)) (total cfg)); [|lia].
    destruct (Z.rem (Z.of_nat (S (S m))) (cadence cfg) =? 0);
      [destruct H as [-> _]|rewrite H];
      destruct (Z.of_nat (S (S m)) <? total cfg); lia.
Qed.

(** X3: a run enters Angular's zone once for every multiple of the cadence
    reached and once more at completion: after n frames, with
    i = min(n + 1, total), that is i / cadence callbacks, plus one if
    i = total.  A whole run of the source makes 7 of its 3000 units of
    work cross into the zone. *)
Theorem run_enters_zone_once_per_checkpoint
    (t c : Z) (w0 : World) (n : nat) :
  1 <= t ->
  0 < c ->
  frames w0 = [] ->
  exists w1 tr, runOutsideAngular (mkConfig t c noRaise) w0 = Ok tt w1 /\
    trace (run (mkConfig t c noRaise) n w1) = trace w0 ++ tr /\
    Z.of_nat (length (firings tr)) =
      Z.min (Z.of_nat n + 1) t / c + (if Z.of_nat n + 1 <? t then 0 else 1).
Proof.
  intros Ht Hc Hf. set (cfg := mkConfig t c noRaise).
  exists (started cfg w0),
         (runEvents cfg (length (counters w0)) (pred (reached cfg n))).
  split; [apply start_ok; reflexivity|].
  destruct (run_reached cfg w0 n Hf Ht (fun _ _ => eq_refl))
    as [_ _ _ _ _ Htr].
  split; [exact Htr|].
  assert (Hk : S (pred (reached cfg n)) = reached cfg n)
    by (unfold reached; cbn [total cfg]; lia).
  assert (Hi : Z.of_nat (reached cfg n) = Z.min (Z.of_nat n + 1) t)
    by (unfold reached; cbn [total cfg]; lia).
  rewrite firings_runEvents by (rewrite ?Hk, ?Hi; cbn [total cadence cfg]; lia).
  rewrite Hk, Hi. cbn [total cadence cfg].
  assert (Hq : 0 <= Z.min (Z.of_nat n + 1) t / c) by (apply Z.div_pos; lia).
  destruct (Z.ltb_spec (Z.min (Z.of_nat n + 1) t) t);
    destruct (Z.ltb_spec (Z.of_nat n + 1) t); lia.
Qed.

Lemma run_enters_zone_once_per_checkpoint_witness :
  exists w1 tr, runOutsideAngular source initial = Ok tt w1 /\
    trace (run source 2999 w1) = trace initial ++ tr /\
    Z.of_nat (length (firings tr)) =
      Z.min (Z.of_nat 2999 + 1) 3000 / 500
      + (if Z.of_nat 2999 + 1 <? 3000 then 0 else 1).
Proof.
  apply (run_enters_zone_once_per_checkpoint 3000 500 initial 2999).
  - lia.
  - lia.
  - reflexivity.
Defined.

(** ** Beyond the claims: the progress shown *)

Lemma progress_started (cfg : Config) (w : World) :
  progress (started cfg w) =
  if 1 <? total cfg
  then (if Z.rem 1 (cadence cfg) =? 0 then percent cfg 1 else 0)
  else 100.
Proof.
  destruct w as [p l a z c f t]. unfold started, stepped.
  destruct (1 <? total cfg); destruct (Z.rem 1 (cadence cfg) =? 0);
    reflexivity.
Qed.

Lemma progress_frame (cfg : Config) (w0 w : World) (m : nat) :
  Running cfg w0 (S m) w ->
  Z.of_nat (S m) < total cfg ->
  (forall c, raises cfg (Z.of_nat (S (S m))) c = false) ->
  progress (frame cfg w) =
  if Z.of_nat (S (S m)) <? total cfg
  then (if Z.rem (Z.of_nat (S (S m))) (cadence cfg) =? 0
        then percent cfg (Z.of_nat (S (S m)))
        else progress w)
  else 100.
Proof.
  intros [Hc Hf _ _ _ _] Hlt Hr.
  assert (Hk : Z.of_nat (S (S m)) = Z.of_nat (S m) + 1) by lia.
  apply Z.ltb_lt in Hlt. rewrite Hlt in Hf. rewrite Hk in Hr |- *.
  rewrite (frame_single cfg w false (length (counters w0)) (Z.of_nat (S m)))
    by (try assumption; rewrite Hc; apply list_lookup_middle; reflexivity).
  destruct w as [p l a z cs f t]. reflexivity.
Qed.

Lemma run_progress (cfg : Config) (w0 : World) (n : nat) :
  frames w0 = [] ->
  0 < cadence cfg ->
  (forall i c, raises cfg i c = false) ->
  Z.of_nat (S n) <= total cfg ->
  progress (run cfg n (started cfg w0)) =
  if Z.of_nat (S n) <? total cfg
  then percent cfg (lastCheckpoint cfg (Z.of_nat (S n)))
  else 100.
Proof.
  intros Hf Hc Hr. unfold lastCheckpoint. induction n as [|n IH]; intros Hle.
  - cbn [run]. rewrite progress_started. change (Z.of_nat 1) with 1.
    pose proof (checkpoint_div (cadence cfg) 0 Hc ltac:(lia)) as Hd.
    change (0 + 1) with 1 in Hd. rewrite Z.div_0_l in Hd by lia.
    destruct (1 <? total cfg); [|reflexivity].
    destruct (Z.rem 1 (cadence cfg) =? 0).
    + destruct Hd as [_ ->]. reflexivity.
    + rewrite Hd, Z.mul_0_r, percent_0. reflexivity.
  - cbn [run].
    rewrite (progress_frame cfg w0 _ n);
      [|apply run_running; auto; lia|lia|intros; apply Hr].
    rewrite IH by lia.
    destruct (Z.ltb_spec (Z.of_nat (S n)) (total cfg)); [|lia].
    pose proof (checkpoint_div (cadence cfg) (Z.of_nat (S n)) Hc ltac:(lia))
      as Hd.
    replace (Z.of_nat (S n) + 1) with (Z.of_nat (S (S n))) in Hd by lia.
    destruct (Z.of_nat (S (S n)) <? total cfg); [|reflexivity].
    destruct (Z.rem (Z.of_nat (S (S n))) (cadence cfg) =? 0).
    + destruct Hd as [_ ->]. reflexivity.
    + rewrite Hd. reflexivity.
Qed.

(** X4: for the source's workload, total 3000 and cadence 500, [progress]
    shows at rest the rounded percentage of the last checkpoint passed (0
    before the first one), whatever the iteration reached since: one of 0,
    17, 33, 50, 67, 83; and 100 once the run has completed. *)
Theorem progress_shows_last_checkpoint (w0 : World) (n : nat) :
  frames w0 = [] ->
  exists w1, runOutsideAngular source w0 = Ok tt w1 /\
    progress (run source n w1) =
      (if Z.of_nat n + 1 <? 3000
       then Math_round
              (inject_Z (500 * ((Z.of_nat n + 1) / 500)) / inject_Z 3000
               * inject_Z 100)%Q
       else 100) /\
    In (progress (run source n w1)) [0; 17; 33; 50; 67; 83; 100].
Proof.
  intros Hf.
  assert (Ht : 1 <= total source) by (cbn; lia).
  assert (Hc : 0 < cadence source) by (cbn; lia).
  exists (started source w0). split; [apply runOutsideAngular_source|].
  assert (Hp : progress (run source n (started source w0)) =
               if Z.of_nat n + 1 <? 3000
               then percent source (500 * ((Z.of_nat n + 1) / 500))
               else 100).
  { destruct (Z.ltb_spec (Z.of_nat n + 1) 3000) as [Hlt|Hge].
    - rewrite run_progress; cbn [total cadence source]; auto; try lia.
      destruct (Z.ltb_spec (Z.of_nat (S n)) 3000); [|lia].
      unfold lastCheckpoint. cbn [cadence source].
      replace (Z.of_nat (S n)) with (Z.of_nat n + 1) by lia. reflexivity.
    - rewrite (run_stable source 2999 n).
      + rewrite run_progress; cbn [total cadence source]; auto; lia.
      + apply (running_idle source w0 _ 3000).
        * apply (run_running source w0 2999); cbn [total source]; auto; lia.
        * cbn [total source]. lia.
      + lia. }
  split; [exact Hp|]. rewrite Hp.
  destruct (Z.ltb_spec (Z.of_nat n + 1) 3000) as [Hlt|Hge];
    [|cbn [In]; auto 10].
  assert (Hq : 0 <= (Z.of_nat n + 1) / 500 < 6).
  { split; [apply Z.div_pos; lia|apply Z.div_lt_upper_bound; lia]. }
  assert (Hk : (Z.of_nat n + 1) / 500 = 0 \/ (Z.of_nat n + 1) / 500 = 1 \/
               (Z.of_nat n + 1) / 500 = 2 \/ (Z.of_nat n + 1) / 500 = 3 \/
               (Z.of_nat n + 1) / 500 = 4 \/ (Z.of_nat n + 1) / 500 = 5)
    by lia.
  destruct Hk as [->|[->|[->|[->|[->| ->]]]]]; vm_compute; auto 10.
Qed.

Lemma progress_shows_last_checkpoint_witness :
  exists w1, runOutsideAngular source initial = Ok tt w1 /\
    progress (run source 1234 w1) =
      (if Z.of_nat 1234 + 1 <? 3000
       then Math_round
              (inject_Z (500 * ((Z.of_nat 1234 + 1) / 500)) / inject_Z 3000
               * inject_Z 100)%Q
       else 100) /\
    In (progress (run source 1234 w1)) [0; 17; 33; 50; 67; 83; 100].
Proof.
  apply (progress_shows_last_checkpoint initial 1234).
  reflexivity.
Defined.








(** ** Beyond the claims: what a unit of work leaves alone *)

(** X6: whether it returns or throws, and whatever the host makes raise,
    a unit of work leaves the current zone as it found it, and of the
    iteration counters it changes none but its own. *)
Theorem step_keeps_zone_and_other_counters
    (cfg : Config) (r : nat) (w : World) :
  zone (after (step cfg r) w) = zone w /\
  length (counters (after (step cfg r) w)) = length (counters w) /\
  (forall r', r' <> r ->
     counters (after (step cfg r) w) !! r' = counters w !! r').
Proof.
  unfold after. generalize (eq_refl (step cfg r w)).
  generalize (step cfg r w) at 2 3 4 5. intros res.
  destruct w as [p l a z cs f t].
  unfold step, checkpoint, bind at 1, incr. cbn [counters].
  destruct (cs !! r) as [i|] eqn:Hi; [|intros <-; repeat split].
  cbv beta iota.
  destruct (Z.rem (i + 1) (cadence cfg) =? 0);
    destruct (raises cfg (i + 1) CallLog);
    destruct (raises cfg (i + 1) CallProgressSet);
    destruct (raises cfg (i + 1) CallCheckZone);
    destruct (raises cfg (i + 1) CallSetTimeout);
    destruct (i + 1 <? total cfg);
    exec; intros <-; cbn [zone counters];
    (split; [reflexivity|]);
    (split; [apply length_insert|]);
    intros r' Hr'; apply list_lookup_insert_ne; congruence.
Qed.

(** ** Beyond the claims: two runs at once *)

Lemma frame_two (cfg : Config) (w : World) (z1 z2 : bool) (r1 r2 : nat)
    (i1 i2 : Z) :
  frames w = [(z1, r1); (z2, r2)] ->
  r1 <> r2 ->
  counters w !! r1 = Some i1 ->
  counters w !! r2 = Some i2 ->
  (forall i c, raises cfg i c = false) ->
  frame cfg w =
  setZone (zone w)
    (stepped cfg r2 (i2 + 1)
       (setZone z2
          (setZone (zone w)
             (stepped cfg r1 (i1 + 1) (setZone z1 (setFrames [] w)))))).
Proof.
  intros Hf Hne H1 H2 Hr. unfold frame. rewrite Hf. cbn [fold_left].
  rewrite (runTask_ok cfg _ z1 r1 i1); [| destruct w; exact H1 | apply Hr].
  rewrite (runTask_ok cfg _ z2 r2 i2); [| | apply Hr].
  - destruct w; reflexivity.
  - destruct w as [p l a z cs f t]. unfold stepped.
    cbv beta iota delta [setZone setFrames counters zone progress loading
                         inAngularZone frames trace].
    cbn [counters] in H2. rewrite list_lookup_insert_ne by exact Hne.
    exact H2.
Qed.

Lemma overlap_running (cfg : Config) (w0 : World) (k m : nat) :
  frames w0 = [] ->
  (forall i c, raises cfg i c = false) ->
  (1 <= k)%nat ->
  Z.of_nat k + 1 < total cfg ->
  Z.of_nat (k + m) + 1 <= total cfg ->
  counters (run cfg m (started cfg (run cfg k (started cfg w0)))) =
    counters w0 ++ [Z.of_nat (k + m) + 1; Z.of_nat m + 1] /\
  frames (run cfg m (started cfg (run cfg k (started cfg w0)))) =
    (if Z.of_nat (k + m) + 1 <? total cfg
     then [(false, length (counters w0))] else [])
    ++ [(false, S (length (counters w0)))] /\
  loading (run cfg m (started cfg (run cfg k (started cfg w0)))) =
    (Z.of_nat (k + m) + 1 <? total cfg).
Proof.
  intros Hf Hr Hk Hkt. induction m as [|m IH]; intros Hle.
  - cbn [run]. rewrite Nat.add_0_r.
    destruct (run_running cfg w0 k Hf ltac:(lia) (fun i c _ => Hr i c))
      as [Hc Hfr _ _ _ _].
    destruct (started_running cfg (run cfg k (started cfg w0)) ltac:(lia))
      as (Hc' & Hf' & Hl' & _).
    rewrite Hc', Hf', Hl', Hc, Hfr.
    replace (Z.of_nat (S k)) with (Z.of_nat k + 1) by lia.
    destruct (Z.ltb_spec (Z.of_nat k + 1) (total cfg)); [|lia].
    rewrite length_app, <- app_assoc. cbn [length app].
    rewrite Nat.add_1_r. repeat split.
  - cbn [run]. destruct (IH ltac:(lia)) as (Hc & Hfr & Hl).
    set (w := run cfg m (started cfg (run cfg k (started cfg w0)))) in *.
    destruct (Z.ltb_spec (Z.of_nat (k + m) + 1) (total cfg)) as [Hlt|]; [|lia].
    cbn [app] in Hfr.
    rewrite (frame_two cfg w false false (length (counters w0))
               (S (length (counters w0)))
               (Z.of_nat (k + m) + 1) (Z.of_nat m + 1));
      [|exact Hfr|lia| | |exact Hr].
    + clear IH. generalize dependent (counters w0). intros c0 Hc Hfr.
      destruct w as [p l a z cs f t].
      cbn [counters frames loading] in Hc, Hfr, Hl. subst cs f l.
      unfold stepped.
      cbv beta iota delta [setZone setFrames counters zone progress loading
                           inAngularZone frames trace].
      replace (Z.of_nat (k + S m) + 1) with (Z.of_nat (k + m) + 1 + 1) by lia.
      replace (Z.of_nat (S m) + 1) with (Z.of_nat m + 1 + 1) by lia.
      destruct (Z.ltb_spec (Z.of_nat m + 1 + 1) (total cfg)); [|lia].
      rewrite (insert_app_r_alt _ _ (length c0)) by reflexivity.
      rewrite Nat.sub_diag. cbn [insert list_insert].
      rewrite (insert_app_r_alt _ _ (S (length c0))) by lia.
      replace (S (length c0) - length c0)%nat with 1%nat by lia.
      cbn [insert list_insert].
      destruct (Z.of_nat (k + m) + 1 + 1 <? total cfg); repeat split.
    + rewrite Hc. apply list_lookup_middle. reflexivity.
    + rewrite Hc. rewrite lookup_app_r by lia.
      replace (S (length (counters w0)) - length (counters w0))%nat
        with 1%nat by lia.
      reflexivity.
Qed.

(** X7: when a second run is started k >= 1 frames into a run, both loops
    do one unit of work per frame, each on its own counter; the frame in
    which the first loop reaches the total sets [loading] to false although
    the second loop is still pending, k units of work short of the
    total. *)
Theorem overlapping_runs_share_loading
    (t c : Z) (w0 : World) (k m : nat) :
  frames w0 = [] ->
  (1 <= k)%nat ->
  Z.of_nat k + 1 < t ->
  Z.of_nat (k + m) + 1 <= t ->
  exists w1 w2,
    runOutsideAngular (mkConfig t c noRaise) w0 = Ok tt w1 /\
    runOutsideAngular (mkConfig t c noRaise)
      (run (mkConfig t c noRaise) k w1) = Ok tt w2 /\
    counters (run (mkConfig t c noRaise) m w2) =
      counters w0 ++ [Z.of_nat (k + m) + 1; Z.of_nat m + 1] /\
    frames (run (mkConfig t c noRaise) m w2) =
      (if Z.of_nat (k + m) + 1 <? t
       then [(false, length (counters w0))] else [])
      ++ [(false, S (length (counters w0)))] /\
    loading (run (mkConfig t c noRaise) m w2) = (Z.of_nat (k + m) + 1 <? t).
Proof.
  intros Hf Hk Hkt Hle. set (cfg := mkConfig t c noRaise).
  exists (started cfg w0), (started cfg (run cfg k (started cfg w0))).
  split; [apply start_ok; reflexivity|].
  split; [apply start_ok; reflexivity|].
  apply (overlap_running cfg w0 k m); auto.
Qed.

Lemma overlapping_runs_share_loading_witness :
  exists w1 w2,
    runOutsideAngular source initial = Ok tt w1 /\
    runOutsideAngular source (run source 100 w1) = Ok tt w2 /\
    counters (run source 2899 w2) =
      counters initial ++ [Z.of_nat (100 + 2899) + 1; Z.of_nat 2899 + 1] /\
    frames (run source 2899 w2) =
      (if Z.of_nat (100 + 2899) + 1 <? 3000
       then [(false, length (counters initial))] else [])
      ++ [(false, S (length (counters initial)))] /\
    loading (run source 2899 w2) = (Z.of_nat (100 + 2899) + 1 <? 3000).
Proof.
  apply (overlapping_runs_share_loading 3000 500 initial 100 2899).
  - reflexivity.
  - lia.
  - lia.
  - lia.
Defined.

(** ** Beyond the claims: callbacks do not nest *)

Lemma enteredAt_stepEvents (cfg : Config) (r : nat) (j i : Z) :
  Forall (fun d => d = 0%nat)
         (collect enteredAt (mkSeen j 0) (stepEvents cfg r false i)).
Proof.
  unfold stepEvents.
  destruct (Z.rem i (cadence cfg) =? 0); destruct (i <? total cfg);
    cbn; repeat (apply List.Forall_cons || apply List.Forall_nil);
    reflexivity.
Qed.

(** X8: in a run no [NgZone.run] callback starts while another is
    executing, and at the end of every unit of work every callback entered
    has returned. *)
Theorem run_callbacks_do_not_nest (t c : Z) (w0 : World) (n : nat) :
  1 <= t ->
  frames w0 = [] ->
  exists w1 tr, runOutsideAngular (mkConfig t c noRaise) w0 = Ok tt w1 /\
    trace (run (mkConfig t c noRaise) n w1) = trace w0 ++ tr /\
    Forall (fun d => d = 0%nat) (nestings tr) /\
    seenDepth (seeAll seen0 tr) = 0%nat.
Proof.
  intros Ht Hf. set (cfg := mkConfig t c noRaise).
  exists (started cfg w0),
         (runEvents cfg (length (counters w0)) (pred (reached cfg n))).
  split; [apply start_ok; reflexivity|].
  destruct (run_reached cfg w0 n Hf Ht (fun _ _ => eq_refl))
    as [_ _ _ _ _ Htr].
  split; [exact Htr|]. split.
  - apply (collect_runEvents_Forall enteredAt).
    + unfold startEvents. rewrite !collect_app.
      change (seeAll seen0 _) with seen0 at 1.
      rewrite !List.Forall_app. repeat split.
      * cbn. apply List.Forall_nil.
      * apply enteredAt_stepEvents.
      * cbn. apply List.Forall_nil.
    + intros j _. apply enteredAt_stepEvents.
  - rewrite seeAll_runEvents. reflexivity.
Qed.

Lemma run_callbacks_do_not_nest_witness :
  exists w1 tr, runOutsideAngular scenario initial = Ok tt w1 /\
    trace (run scenario 9 w1) = trace initial ++ tr /\
    Forall (fun d => d = 0%nat) (nestings tr) /\
    seenDepth (seeAll seen0 tr) = 0%nat.
Proof.
  apply (run_callbacks_do_not_nest 10 5 initial 9).
  - lia.
  - reflexivity.
Defined.

(** ** Beyond the claims: the patched tick *)

(** X9: a tick patched by [watchTicks] does to the application what the
    tick it replaced did, and writes one line before it; patched n times
    (once per component constructed), every tick writes n lines. *)
Theorem watchTicks_logs_once_per_patch
    {App : Type} (tick : AppRef.Tick App) (n : nat) (a : App) :
  Nat.iter n AppRef.watchTicks tick a =
  (fst (tick a), repeat AppRef.TickLine n ++ snd (tick a)).
Proof.
  induction n as [|n IH].
  - cbn. destruct (tick a); reflexivity.
  - cbn [Nat.iter nat_rect repeat app]. unfold AppRef.watchTicks at 1.
    change (nat_rect _ tick (fun _ => AppRef.watchTicks) n)
      with (Nat.iter n AppRef.watchTicks tick).
    rewrite IH. reflexivity.
Qed.

(** ** Runs that overlap, and [loading] *)

Lemma after_runOutsideAngular_source (w : World) :
  after (runOutsideAngular source) w = started source w.
Proof. unfold after. rewrite runOutsideAngular_source. reflexivity. Qed.

(** C4, as stated, fails: of two runs, the second started 100 frames into
    the first, the second has done 2900 of its 3000 units of work when
    [loading] becomes false. *)
Lemma loading_false_before_total_when_runs_overlap :
  ~ loadingUntilTotal source
      (run source 2899
         (after (runOutsideAngular source)
            (run source 100 (after (runOutsideAngular source) initial)))).
Proof.
  intros H. rewrite !after_runOutsideAngular_source in H.
  destruct (overlap_running source initial 100 2899)
    as (Hc & _ & Hl); try (cbn [total source]; lia); try reflexivity.
  assert (Ht : loading (run source 2899
                        (started source (run source 100 (started source initial))))
               = true).
  { apply (H 1%nat 2900); [|cbn [total source]; lia].
    rewrite Hc. change (counters initial) with (@nil Z). cbn [app].
    change ([Z.of_nat (100 + 2899) + 1; Z.of_nat 2899 + 1] !! 1%nat)
      with (Some (Z.of_nat 2899 + 1)).
    f_equal; lia. }
  rewrite Hl in Ht. apply Z.ltb_lt in Ht. cbn [total source] in Ht. lia.
Qed.

(** C6, as stated, fails: of two runs, the second started one frame into
    the first, the second still has a unit of work pending, its completion
    callback not yet run, when [loading] reads false. *)
Lemma loading_false_while_second_run_pending :
  ~ loadingWhilePending
      (run source 2998
         (after (runOutsideAngular source)
            (run source 1 (after (runOutsideAngular source) initial)))).
Proof.
  intros H. rewrite !after_runOutsideAngular_source in H.
  destruct (overlap_running source initial 1 2998)
    as (_ & Hf & Hl); try (cbn [total source]; lia); try reflexivity.
  cbn [total source] in Hf, Hl.
  assert (Hge : (Z.of_nat (1 + 2998) + 1 <? 3000) = false)
    by (apply Z.ltb_ge; lia).
  rewrite Hge in Hf, Hl. cbn [app] in Hf.
  assert (Ht : loading (run source 2998
                        (started source (run source 1 (started source initial))))
               = true).
  { apply H. rewrite Hf. discriminate. }
  rewrite Hl in Ht. discriminate Ht.
Qed.
